(** * pipe_resize: query or set the capacity of a named pipe

    Shallow embedding of [src/pipe_resize.c].  The program is a single
    [main] that validates its argument count, opens a path read-write,
    issues one [fcntl] (F_GETPIPE_SZ or F_SETPIPE_SZ), prints the result
    and returns an exit code.

    The embedding keeps the C control flow: [main] is written in a small
    state monad with early [return], the state holding the kernel, the
    thread's [errno] and the chronological list of observable events
    (system calls and writes to the two standard streams).  The kernel is
    a parameter: every theorem quantifies over an arbitrary implementation
    of [open], [fcntl] and [close]. *)

From Stdlib Require Import ZArith List String Ascii Bool Lia.
From Stdlib Require Import Decimal DecimalString DecimalPos DecimalN DecimalZ.
Import ListNotations.
Local Open Scope string_scope.
Local Open Scope Z_scope.

(** ** C integer types of the Linux ABIs *)

(** [int] and [unsigned] are 32 bits wide on every Linux target. *)
Definition INT_MAX : Z := 2147483647.
Definition UINT_MAX : Z := 4294967295.

(** [unsigned long] is 32 bits wide on the ILP32 targets and 64 bits wide
    on the LP64 ones (x86-64, aarch64, ...). *)
Inductive data_model : Set := ILP32 | LP64.

Definition ULONG_MAX (dm : data_model) : Z :=
  match dm with
  | ILP32 => 4294967295
  | LP64 => 18446744073709551615
  end.

(** Conversion of an [unsigned long] to [unsigned], as in
    [unsigned size = strtoul(...)]: reduction modulo 2^32. *)
Definition to_unsigned (v : Z) : Z := v mod (UINT_MAX + 1).

(** The cast [(int)size] of an [unsigned]: the value is kept when it is
    representable, and wraps modulo 2^32 otherwise (gcc, clang). *)
Definition to_int (u : Z) : Z :=
  if u >? INT_MAX then u - (UINT_MAX + 1) else u.

(** ** The C library functions the program calls *)

Definition NUL : ascii := Ascii.zero.
Definition nl : string := String (ascii_of_nat 10) EmptyString.

Definition code (c : ascii) : Z := Z.of_N (N_of_ascii c).

(** [isspace] in the "C" locale: space, \t, \n, \v, \f, \r. *)
Definition isspace (c : ascii) : bool :=
  (code c =? 32) || ((9 <=? code c) && (code c <=? 13)).

Definition isdigit (c : ascii) : bool :=
  (48 <=? code c) && (code c <=? 57).

Definition digit_value (c : ascii) : Z := code c - 48.

(** A [char *] into a NUL-terminated string is the suffix it points at;
    [*p] is its first character, the terminator when the suffix is
    empty. *)
Definition deref (p : string) : ascii :=
  match p with
  | String c _ => c
  | EmptyString => NUL
  end.

Fixpoint skip_spaces (s : string) : string :=
  match s with
  | String c r => if isspace c then skip_spaces r else s
  | EmptyString => s
  end.

(** Optional sign: [(negative, rest)]. *)
Definition scan_sign (s : string) : bool * string :=
  match s with
  | String c r =>
      if Ascii.eqb c "-" then (true, r)
      else if Ascii.eqb c "+" then (false, r)
      else (false, s)
  | EmptyString => (false, s)
  end.

(** The longest prefix of decimal digits: the exact value read so far,
    the number of digits consumed, and the unconsumed suffix. *)
Fixpoint scan_digits (s : string) (acc : Z) (n : nat) : Z * nat * string :=
  match s with
  | String c r =>
      if isdigit c then scan_digits r (acc * 10 + digit_value c) (S n)
      else (acc, n, s)
  | EmptyString => (acc, n, s)
  end.

Definition ERANGE : Z := 34.

(** [strtoul(nptr, &endptr, 10)] (ISO C 7.22.1.4): the returned value, the
    final [endptr], and the [errno] stored when the value is out of range.
    With no digit there is no conversion: the value is 0 and [endptr] is
    [nptr].  A value above [ULONG_MAX] gives [ULONG_MAX]; a minus sign
    negates the value in [unsigned long]. *)
Definition strtoul_conv (dm : data_model) (nptr : string)
  : Z * string * option Z :=
  let '(negative, s) := scan_sign (skip_spaces nptr) in
  let '(v, n, endptr) := scan_digits s 0 0 in
  match n with
  | O => (0, nptr, None)
  | S _ =>
      if v >? ULONG_MAX dm then (ULONG_MAX dm, endptr, Some ERANGE)
      else if negative then ((- v) mod (ULONG_MAX dm + 1), endptr, None)
      else (v, endptr, None)
  end.

(** The conversion [%s] of [printf]; glibc prints [(null)] for a null
    pointer, which is what [argv[0]] is when [argc] is 0. *)
Definition pct_s (p : option string) : string :=
  match p with
  | Some s => s
  | None => "(null)"
  end.

(** The conversion [%d] of [printf]. *)
Definition pct_d (z : Z) : string := NilZero.string_of_int (Z.to_int z).

(** ** The operating system *)

Definition O_RDWR : Z := 2.

(** The two [fcntl] requests of the program; F_SETPIPE_SZ carries its
    [int] argument. *)
Inductive fcntl_cmd : Set :=
| F_GETPIPE_SZ
| F_SETPIPE_SZ (arg : Z).

(** What a system call hands back: the function result and the value
    stored in [errno] when that result is -1. *)
Record sysret : Set := { rv : Z; err : Z }.

(** A kernel: a state and the three system calls as transitions on it. *)
Record OS : Type := {
  kstate : Type;
  sys_open : string -> Z -> kstate -> sysret * kstate;
  sys_fcntl : Z -> fcntl_cmd -> kstate -> sysret * kstate;
  sys_close : Z -> kstate -> sysret * kstate
}.

(** What an observer of the process sees, in order. *)
Inductive event : Set :=
| Open (path : string) (flags : Z) (r : sysret)
| Fcntl (fd : Z) (cmd : fcntl_cmd) (r : sysret)
| Close (fd : Z) (r : sysret)
| Stderr (s : string)
| Stdout (s : string).

(** ** The program *)

Section Program.

Variable os : OS.
Variable dm : data_model.
(** [strerror]: the message table of the C library. *)
Variable strerror : Z -> string.

Record state : Type := {
  kernel : kstate os;
  errno : Z;
  trace : list event
}.

(** A statement either falls through with a value or leaves [main]
    through [return code]. *)
Inductive flow (A : Type) : Type :=
| Next (a : A)
| Return (code : Z).
Arguments Next {A} a.
Arguments Return {A} code.

Definition M (A : Type) : Type := state -> flow A * state.

Definition pure {A} (a : A) : M A := fun s => (Next a, s).
Definition return_ {A} (c : Z) : M A := fun s => (Return c, s).
Definition bind {A B} (m : M A) (f : A -> M B) : M B :=
  fun s =>
    match m s with
    | (Next a, s') => f a s'
    | (Return c, s') => (Return c, s')
    end.

Notation "x <- m ; k" := (bind m (fun x => k))
  (at level 61, m at next level, right associativity).
Notation "m ;; k" := (bind m (fun _ => k))
  (at level 61, right associativity).

Definition log (e : event) (s : state) : state :=
  {| kernel := kernel s; errno := errno s;
     trace := (trace s ++ [e])%list |}.

(** A system call through its libc wrapper: the kernel moves, the call
    is observed, and [errno] is stored when the result is -1. *)
Definition syscall (call : kstate os -> sysret * kstate os)
                   (ev : sysret -> event) : M Z :=
  fun s =>
    let '(r, k') := call (kernel s) in
    (Next (rv r),
     {| kernel := k';
        errno := if rv r =? -1 then err r else errno s;
        trace := (trace s ++ [ev r])%list |}).

Definition open (path : string) (flags : Z) : M Z :=
  syscall (sys_open os path flags) (Open path flags).
Definition fcntl (fd : Z) (cmd : fcntl_cmd) : M Z :=
  syscall (sys_fcntl os fd cmd) (Fcntl fd cmd).
Definition close (fd : Z) : M Z :=
  syscall (sys_close os fd) (Close fd).

Definition get_errno : M Z := fun s => (Next (errno s), s).

Definition fprintf_stderr (msg : string) : M unit :=
  fun s => (Next tt, log (Stderr msg) s).
Definition printf (msg : string) : M unit :=
  fun s => (Next tt, log (Stdout msg) s).

Definition strtoul (nptr : string) : M (Z * string) :=
  fun s =>
    let '(v, endptr, e) := strtoul_conv dm nptr in
    (Next (v, endptr),
     match e with
     | Some n => {| kernel := kernel s; errno := n; trace := trace s |}
     | None => s
     end).

(** [if (c) { ... }] without an else branch. *)
Definition when (c : bool) (body : M unit) : M unit :=
  if c then body else pure tt.

(** [argv[i]] for an index below [argc]. *)
Definition arg (argv : list string) (i : nat) : string :=
  nth i argv EmptyString.

(** [main]; [argc] is the length of [argv], and [argv[argc]] is the
    null pointer. *)
Definition main (argv : list string) : M Z :=
  let argc := Z.of_nat (List.length argv) in
  when ((argc <? 2) || (argc >? 3)) (
    fprintf_stderr ("Usage: " ++ pct_s (nth_error argv 0)
                    ++ " <fifo_path> [new_fifo_size]" ++ nl) ;;
    return_ 1) ;;
  fd <- open (arg argv 1) O_RDWR ;
  when (fd =? -1) (
    e <- get_errno ;
    fprintf_stderr ("Failed to open " ++ arg argv 1 ++ ": "
                    ++ strerror e ++ nl) ;;
    return_ 2) ;;
  ret <- (if argc =? 3 then
            p <- strtoul (arg argv 2) ;
            let size := to_unsigned (fst p) in
            let endptr := snd p in
            when (negb (Ascii.eqb (deref endptr) NUL) || (size >? INT_MAX)) (
              fprintf_stderr ("The size given is either invalid or too big"
                              ++ nl) ;;
              close fd ;;
              return_ 3) ;;
            fcntl fd (F_SETPIPE_SZ (to_int size))
          else
            fcntl fd F_GETPIPE_SZ) ;
  when (ret =? -1) (
    e <- get_errno ;
    fprintf_stderr ("Operation failed: " ++ strerror e ++ nl) ;;
    close fd ;;
    return_ 4) ;;
  printf (pct_d ret ++ nl) ;;
  close fd ;;
  return_ 0.

Definition exit_code (f : flow Z) : Z :=
  match f with
  | Next c => c
  | Return c => c
  end.

(** One run of the process on the kernel state [k]: exit code,
    observed events, and the kernel state left behind. *)
Definition exec (argv : list string) (k : kstate os)
  : Z * list event * kstate os :=
  let '(f, s) := main argv {| kernel := k; errno := 0; trace := [] |} in
  (exit_code f, trace s, kernel s).

End Program.

Arguments Next {A} a.
Arguments Return {A} code.

(** ** Reading a trace *)

Definition is_open (e : event) : bool :=
  match e with Open _ _ _ => true | _ => false end.
Definition is_fcntl (e : event) : bool :=
  match e with Fcntl _ _ _ => true | _ => false end.
Definition is_close (e : event) : bool :=
  match e with Close _ _ => true | _ => false end.
Definition is_syscall (e : event) : bool :=
  is_open e || is_fcntl e || is_close e.

(** The [fcntl] calls of a run, and its [close] calls. *)
Definition control_calls (tr : list event) : list event := filter is_fcntl tr.
Definition closes (tr : list event) : list event := filter is_close tr.

(** Everything written to standard output. *)
Fixpoint stdout_of (tr : list event) : string :=
  match tr with
  | [] => ""
  | Stdout s :: r => s ++ stdout_of r
  | _ :: r => stdout_of r
  end.

(** The buffer size the kernel reported to a query, if one was made. *)
Fixpoint reported_size (tr : list event) : option sysret :=
  match tr with
  | [] => None
  | Fcntl _ F_GETPIPE_SZ r :: _ => Some r
  | _ :: r => reported_size r
  end.

(** [sub] occurs in [s]. *)
Definition includes (s sub : string) : Prop :=
  exists pre post, s = pre ++ sub ++ post.

(** ** Size arguments *)

(** A string without the terminator inside, as every [argv[i]] is. *)
Fixpoint c_string (s : string) : bool :=
  match s with
  | String c r => negb (Ascii.eqb c NUL) && c_string r
  | EmptyString => true
  end.

(** The number a string of decimal digits and nothing else denotes. *)
Definition decimal (s : string) : option Z :=
  option_map Z.of_uint (NilZero.uint_of_string s).

(** White space and a sign in front of the digits. *)
Fixpoint all_spaces (s : string) : bool :=
  match s with
  | String c r => isspace c && all_spaces r
  | EmptyString => true
  end.

Definition is_sign (s : string) : Prop := s = "" \/ s = "+" \/ s = "-".

(** The [unsigned] the conversion of [sign ++ digits] is stored as, for
    digits denoting [n <= ULONG_MAX]. *)
Definition converted (dm : data_model) (sign : string) (n : Z) : Z :=
  to_unsigned (if String.eqb sign "-" then (- n) mod (ULONG_MAX dm + 1) else n).

(** The integer a string denotes when it is a decimal numeral in normal
    form: digits with an optional minus sign in front, no leading zero,
    no sign on zero. *)
Definition numeral (s : string) : option Z :=
  match NilZero.int_of_string s with
  | Some d => if Decimal.int_beq (Decimal.norm d) d then Some (Z.of_int d)
              else None
  | None => None
  end.

(** What a query prints, given what the kernel reported. *)
Definition query_output (reported : option Z) : string :=
  match reported with
  | Some v => if v =? -1 then "" else pct_d v ++ nl
  | None => ""
  end.

(** The messages of a run on standard error, and its writes to standard
    output. *)
Definition is_stderr (e : event) : bool :=
  match e with Stderr _ => true | _ => false end.
Definition is_stdout (e : event) : bool :=
  match e with Stdout _ => true | _ => false end.
Definition diagnostics (tr : list event) : list event := filter is_stderr tr.
Definition outputs (tr : list event) : list event := filter is_stdout tr.

(** The system calls of a run, in order. *)
Definition syscalls (tr : list event) : list event := filter is_syscall tr.

(** The first character [strtoul] would have to convert: the one after
    the white space and the optional sign. *)
Definition first_subject_char (s : string) : ascii :=
  deref (snd (scan_sign (skip_spaces s))).

(** ** A reference kernel

    One FIFO at a fixed path, with the behaviour fcntl(2) documents for
    pipe capacities: a query returns the capacity; a request is rounded up
    to a power-of-two number of pages and refused with EPERM above the
    unprivileged limit.  It serves to run the program on concrete
    inputs. *)

Module RefKernel.

Definition ENOENT : Z := 2.
Definition EPERM : Z := 1.
Definition EBADF : Z := 9.
Definition EINVAL : Z := 22.

Definition fifo_path : string := "/tmp/myfifo".
Definition page_size : Z := 4096.
Definition pipe_max_size : Z := 1048576.

Record t : Set := { capacity : Z; fds : list Z }.

Definition boot : t := {| capacity := 65536; fds := [] |}.

Definition ok (v : Z) : sysret := {| rv := v; err := 0 |}.
Definition fail (e : Z) : sysret := {| rv := -1; err := e |}.

Definition is_open_fd (fd : Z) (k : t) : bool := existsb (Z.eqb fd) (fds k).

Definition open (path : string) (flags : Z) (k : t) : sysret * t :=
  if String.eqb path fifo_path then
    let fd := 3 + Z.of_nat (List.length (fds k)) in
    (ok fd, {| capacity := capacity k; fds := fd :: fds k |})
  else (fail ENOENT, k).

Fixpoint round_from (fuel : nat) (cap n : Z) : Z :=
  match fuel with
  | O => cap
  | S f => if n <=? cap then cap else round_from f (2 * cap) n
  end.
Definition round_pipe_size (n : Z) : Z := round_from 32 page_size n.

Definition fcntl (fd : Z) (cmd : fcntl_cmd) (k : t) : sysret * t :=
  if is_open_fd fd k then
    match cmd with
    | F_GETPIPE_SZ => (ok (capacity k), k)
    | F_SETPIPE_SZ n =>
        if n <? 0 then (fail EINVAL, k)
        else if n >? pipe_max_size then (fail EPERM, k)
        else (ok (round_pipe_size n),
              {| capacity := round_pipe_size n; fds := fds k |})
    end
  else (fail EBADF, k).

Definition close (fd : Z) (k : t) : sysret * t :=
  if is_open_fd fd k then
    (ok 0, {| capacity := capacity k;
              fds := filter (fun x => negb (x =? fd)) (fds k) |})
  else (fail EBADF, k).

Definition os : OS :=
  {| kstate := t; sys_open := open; sys_fcntl := fcntl; sys_close := close |}.

Definition strerror (e : Z) : string :=
  if e =? EPERM then "Operation not permitted"
  else if e =? ENOENT then "No such file or directory"
  else if e =? EBADF then "Bad file descriptor"
  else if e =? EINVAL then "Invalid argument"
  else if e =? ERANGE then "Numerical result out of range"
  else "Unknown error " ++ pct_d e.

(** The program on the reference kernel, on an LP64 machine, and the
    three components of what it returns. *)
Definition pipe_resize (argv : list string) (k : t) : Z * list event * t :=
  exec os LP64 strerror argv k.

Definition exit_of (out : Z * list event * t) : Z := fst (fst out).
Definition trace_of (out : Z * list event * t) : list event := snd (fst out).
Definition kernel_of (out : Z * list event * t) : t := snd out.

End RefKernel.

(** ** The five ways a run can go *)

(** The size the program accepts from its second argument: the converted
    [unsigned], when [strtoul] stopped at the terminator and the value is
    at most [INT_MAX]. *)
Definition accepted_size (dm : data_model) (s : string) : option Z :=
  let '(v, endptr, _) := strtoul_conv dm s in
  if negb (Ascii.eqb (deref endptr) NUL) || (to_unsigned v >? INT_MAX)
  then None
  else Some (to_unsigned v).

(** The control request an invocation asks for once the path is open. *)
Definition request (dm : data_model) (argv : list string) : option fcntl_cmd :=
  match argv with
  | [_; _] => Some F_GETPIPE_SZ
  | [_; _; size] =>
      option_map (fun n => F_SETPIPE_SZ (to_int n)) (accepted_size dm size)
  | _ => None
  end.

Definition usage_msg (argv : list string) : string :=
  "Usage: " ++ pct_s (nth_error argv 0) ++ " <fifo_path> [new_fifo_size]" ++ nl.
Definition open_failed_msg (strerror : Z -> string) (path : string) (e : Z)
  : string :=
  "Failed to open " ++ path ++ ": " ++ strerror e ++ nl.
Definition bad_size_msg : string :=
  "The size given is either invalid or too big" ++ nl.
Definition op_failed_msg (strerror : Z -> string) (e : Z) : string :=
  "Operation failed: " ++ strerror e ++ nl.

Section Runs.

Variable os : OS.
Variable dm : data_model.
Variable strerror : Z -> string.

Definition arity_ok (argv : list string) : Prop :=
  List.length argv = 2%nat \/ List.length argv = 3%nat.

Inductive run (argv : list string) (k : kstate os)
  : Z * list event * kstate os -> Prop :=
| run_usage :
    ~ arity_ok argv ->
    run argv k (1, [Stderr (usage_msg argv)], k)
| run_open_failed r k1 :
    arity_ok argv ->
    sys_open os (arg argv 1) O_RDWR k = (r, k1) ->
    rv r = -1 ->
    run argv k
      (2, [Open (arg argv 1) O_RDWR r;
           Stderr (open_failed_msg strerror (arg argv 1) (err r))], k1)
| run_size_rejected r k1 c k2 :
    List.length argv = 3%nat ->
    sys_open os (arg argv 1) O_RDWR k = (r, k1) ->
    rv r <> -1 ->
    accepted_size dm (arg argv 2) = None ->
    sys_close os (rv r) k1 = (c, k2) ->
    run argv k
      (3, [Open (arg argv 1) O_RDWR r; Stderr bad_size_msg;
           Close (rv r) c], k2)
| run_control_failed r k1 cmd f k2 c k3 :
    arity_ok argv ->
    sys_open os (arg argv 1) O_RDWR k = (r, k1) ->
    rv r <> -1 ->
    request dm argv = Some cmd ->
    sys_fcntl os (rv r) cmd k1 = (f, k2) ->
    rv f = -1 ->
    sys_close os (rv r) k2 = (c, k3) ->
    run argv k
      (4, [Open (arg argv 1) O_RDWR r; Fcntl (rv r) cmd f;
           Stderr (op_failed_msg strerror (err f)); Close (rv r) c], k3)
| run_success r k1 cmd f k2 c k3 :
    arity_ok argv ->
    sys_open os (arg argv 1) O_RDWR k = (r, k1) ->
    rv r <> -1 ->
    request dm argv = Some cmd ->
    sys_fcntl os (rv r) cmd k1 = (f, k2) ->
    rv f <> -1 ->
    sys_close os (rv r) k2 = (c, k3) ->
    run argv k
      (0, [Open (arg argv 1) O_RDWR r; Fcntl (rv r) cmd f;
           Stdout (pct_d (rv f) ++ nl); Close (rv r) c], k3).

End Runs.

(** * Properties *)

(** ** Every execution is one of the five runs *)

Section Soundness.

Variable os : OS.
Variable dm : data_model.
Variable strerror : Z -> string.

Ltac step :=
  cbn -[append pct_d strtoul_conv to_unsigned to_int INT_MAX NUL].
Ltac run_main :=
  unfold exec, main, bind, when, open, fcntl, close, syscall, get_errno,
    fprintf_stderr, printf, strtoul, return_, pure, log, arg; step.

Lemma exec_query prog path k :
  run os dm strerror [prog; path] k (exec os dm strerror [prog; path] k).
Proof.
  run_main.
  destruct (sys_open os path O_RDWR k) as [r k1] eqn:Ho. step.
  destruct (Z.eqb_spec (rv r) (-1)) as [Hr|Hr]; step.
  - eapply run_open_failed; eauto. left; reflexivity.
  - destruct (sys_fcntl os (rv r) F_GETPIPE_SZ k1) as [f k2] eqn:Hf. step.
    destruct (Z.eqb_spec (rv f) (-1)) as [Hf1|Hf1]; step;
      destruct (sys_close os (rv r) k2) as [c k3] eqn:Hc; step.
    + eapply run_control_failed; eauto. left; reflexivity.
    + eapply run_success; eauto. left; reflexivity.
Qed.

Lemma exec_resize prog path size k :
  run os dm strerror [prog; path; size] k
    (exec os dm strerror [prog; path; size] k).
Proof.
  run_main.
  destruct (sys_open os path O_RDWR k) as [r k1] eqn:Ho. step.
  destruct (Z.eqb_spec (rv r) (-1)) as [Hr|Hr]; step.
  - eapply run_open_failed; eauto. right; reflexivity.
  - assert (Hreq : request dm [prog; path; size]
                   = option_map (fun n => F_SETPIPE_SZ (to_int n))
                       (accepted_size dm size)) by reflexivity.
    assert (Hacc := eq_refl (accepted_size dm size)).
    unfold accepted_size at 2 in Hacc.
    destruct (strtoul_conv dm size) as [[v endptr] e] eqn:Hs. step.
    destruct (negb (Ascii.eqb (deref endptr) NUL)
              || (to_unsigned v >? INT_MAX));
      destruct e; step.
    1,2: destruct (sys_close os (rv r) k1) as [c k2] eqn:Hcl; step;
         eapply run_size_rejected; eauto.
    all: rewrite Hacc in Hreq; simpl in Hreq;
      destruct (sys_fcntl os (rv r) (F_SETPIPE_SZ (to_int (to_unsigned v))) k1)
        as [f k2] eqn:Hf; step;
      destruct (Z.eqb_spec (rv f) (-1)) as [Hf1|Hf1]; step;
      destruct (sys_close os (rv r) k2) as [c k3] eqn:Hcl; step;
      [ eapply run_control_failed | eapply run_success ]; eauto;
      right; reflexivity.
Qed.

Lemma argc_test (argv : list string) :
  let argc := Z.of_nat (List.length argv) in
  (argc <? 2) || (argc >? 3) = true <-> ~ arity_ok argv.
Proof.
  unfold arity_ok. cbv zeta.
  destruct (Z.ltb_spec (Z.of_nat (List.length argv)) 2);
    destruct (Z.gtb_spec (Z.of_nat (List.length argv)) 3);
    simpl; split; intros; try lia; try discriminate.
Qed.

Lemma exec_usage argv k :
  ~ arity_ok argv ->
  exec os dm strerror argv k = (1, [Stderr (usage_msg argv)], k).
Proof.
  intros H. apply argc_test in H. cbv zeta in H.
  unfold exec, main. rewrite H. reflexivity.
Qed.

(** [exec] is total, and what it returns is a [run]. *)
Lemma exec_run argv k :
  run os dm strerror argv k (exec os dm strerror argv k).
Proof.
  destruct argv as [|a0 [|a1 [|a2 [|a3 l]]]];
    try apply exec_query; try apply exec_resize;
    rewrite exec_usage; try apply run_usage; unfold arity_ok; simpl; lia.
Qed.

Lemma exec_inv argv k out :
  exec os dm strerror argv k = out -> run os dm strerror argv k out.
Proof. intros <-. apply exec_run. Qed.

End Soundness.

(** ** Strings *)

Lemma append_assoc (a b c : string) : (a ++ b) ++ c = a ++ b ++ c.
Proof. induction a as [|x a IH]; simpl; [reflexivity | now rewrite IH]. Qed.

Lemma append_empty_r (a : string) : a ++ "" = a.
Proof. induction a as [|x a IH]; simpl; [reflexivity | now rewrite IH]. Qed.

Lemma includes_mid (pre sub post : string) : includes (pre ++ sub ++ post) sub.
Proof. now exists pre, post. Qed.

(** A pointer into a C string points at a C string, and sees the
    terminator only at its end. *)
Lemma c_string_suffix (pre s : string) :
  c_string (pre ++ s) = true -> c_string s = true.
Proof.
  induction pre as [|x pre IH]; simpl; [auto |].
  intros H. apply andb_true_iff in H. tauto.
Qed.

Lemma deref_c_string (s : string) :
  c_string s = true -> s <> "" -> Ascii.eqb (deref s) NUL = false.
Proof.
  destruct s as [|c r]; simpl; [congruence |].
  intros H _. apply andb_true_iff in H. destruct H as [H _].
  now apply negb_true_iff in H.
Qed.

(** ** What [strtoul] reads *)

Lemma skip_spaces_suffix (s : string) : exists pre, s = pre ++ skip_spaces s.
Proof.
  induction s as [|c r [pre IH]]; simpl.
  - now exists "".
  - destruct (isspace c).
    + exists (String c pre). simpl. now rewrite <- IH.
    + now exists "".
Qed.

Lemma scan_sign_suffix (s : string) : exists pre, s = pre ++ snd (scan_sign s).
Proof.
  destruct s as [|c r]; simpl.
  - now exists "".
  - destruct (Ascii.eqb c "-"); [|destruct (Ascii.eqb c "+")]; simpl.
    + now exists (String c "").
    + now exists (String c "").
    + now exists "".
Qed.

Lemma scan_digits_suffix (s : string) (acc : Z) (n : nat) :
  exists pre, s = pre ++ snd (scan_digits s acc n).
Proof.
  revert acc n. induction s as [|c r IH]; intros acc n; simpl.
  - now exists "".
  - destruct (isdigit c).
    + destruct (IH (acc * 10 + digit_value c) (S n)) as [pre E].
      exists (String c pre). simpl. now rewrite <- E.
    + now exists "".
Qed.

(** [endptr] points into the argument. *)
Lemma strtoul_endptr_suffix (dm : data_model) (s : string) :
  exists pre, s = pre ++ snd (fst (strtoul_conv dm s)).
Proof.
  unfold strtoul_conv.
  destruct (skip_spaces_suffix s) as [p1 E1].
  destruct (scan_sign_suffix (skip_spaces s)) as [p2 E2].
  destruct (scan_sign (skip_spaces s)) as [neg s1]. simpl in E2.
  destruct (scan_digits_suffix s1 0 0) as [p3 E3].
  destruct (scan_digits s1 0 0) as [[v n] e]. simpl in E3.
  destruct n as [|n].
  - now exists "".
  - exists (p1 ++ p2 ++ p3).
    destruct (v >? ULONG_MAX dm); [| destruct neg]; simpl;
      rewrite !append_assoc, <- E3, <- E2; exact E1.
Qed.

(** A string of digits is read to its end, digit by digit, into the
    number it denotes. *)
Lemma of_uint_cons (d : uint) (k : Z) (f : uint -> uint) :
  (forall l, DecimalPos.Unsigned.of_lu (f l)
             = (Z.to_N k + 10 * DecimalPos.Unsigned.of_lu l)%N) ->
  (forall l, Decimal.revapp (f d) l = Decimal.revapp d (f l)) ->
  0 <= k ->
  Z.of_uint (f d)
  = k * 10 ^ Z.of_N (DecimalPos.Unsigned.usize d) + Z.of_uint d.
Proof.
  intros Hf Hr Hk. unfold Z.of_uint.
  rewrite !DecimalPos.Unsigned.of_uint_alt. unfold Decimal.rev at 1.
  rewrite Hr, DecimalPos.Unsigned.of_lu_revapp, Hf. simpl.
  rewrite N.add_0_r, N2Z.inj_add, N2Z.inj_mul, N2Z.inj_pow, Z2N.id by lia.
  simpl. lia.
Qed.

Lemma scan_digits_decimal (s : string) :
  forall d acc n,
    NilEmpty.uint_of_string s = Some d ->
    scan_digits s acc n
    = (acc * 10 ^ Z.of_N (DecimalPos.Unsigned.usize d) + Z.of_uint d,
       (n + String.length s)%nat, "").
Proof.
  induction s as [|c r IH]; intros d acc n H; simpl in *.
  - injection H as <-. simpl DecimalPos.Unsigned.usize. simpl String.length.
    change (10 ^ Z.of_N 0) with 1. change (Z.of_uint Nil) with 0.
    now rewrite Z.mul_1_r, Z.add_0_r, Nat.add_0_r.
  - destruct (NilEmpty.uint_of_string r) as [d'|] eqn:Hr; [|discriminate].
    apply uint_of_char_spec in H.
    assert (Hp : forall m, 10 ^ Z.of_N (N.succ m) = 10 * 10 ^ Z.of_N m).
    { intros m. rewrite N2Z.inj_succ, Z.pow_succ_r; lia. }
    repeat (destruct H as [[-> ->]|H]); try destruct H as [-> ->];
      match goal with
      | |- context [isdigit ?c] =>
          let b := eval vm_compute in (isdigit c) in
          change (isdigit c) with b;
          let v := eval vm_compute in (digit_value c) in
          change (digit_value c) with v
      end;
      cbv iota; rewrite (IH d' _ _ eq_refl);
      match goal with
      | |- ((_ * 10 + ?k) * _ + _, _, _) = (_ + Z.of_uint (?f d'), _, _) =>
          rewrite (of_uint_cons d' k f);
          [ simpl Unsigned.usize; rewrite Hp; f_equal; f_equal; lia
          | reflexivity | reflexivity | lia ]
      end.
Qed.

Lemma decimal_nonneg (s : string) (n : Z) : decimal s = Some n -> 0 <= n.
Proof.
  unfold decimal. destruct (NilZero.uint_of_string s); simpl; [|discriminate].
  intros [= <-]. unfold Z.of_uint. lia.
Qed.

Lemma scan_decimal (s : string) (n : Z) :
  decimal s = Some n ->
  exists m, scan_digits s 0 0 = (n, S m, "").
Proof.
  unfold decimal, NilZero.uint_of_string. destruct s as [|c r]; [discriminate|].
  destruct (NilEmpty.uint_of_string (String c r)) as [d|] eqn:Hd;
    [|discriminate].
  intros [= <-]. rewrite (scan_digits_decimal _ d 0 0%nat Hd).
  exists (String.length r). reflexivity.
Qed.

(** A digit is neither white space nor a sign. *)
Lemma decimal_head (s : string) (n : Z) :
  decimal s = Some n ->
  skip_spaces s = s /\ scan_sign s = (false, s).
Proof.
  unfold decimal, NilZero.uint_of_string. destruct s as [|c r]; [discriminate|].
  simpl. destruct (NilEmpty.uint_of_string r) as [d|]; [|discriminate].
  destruct (uint_of_char c (Some d)) as [d'|] eqn:H; [|discriminate].
  intros _. apply uint_of_char_spec in H.
  repeat (destruct H as [[-> _]|H]); try destruct H as [-> _]; now split.
Qed.

(** [strtoul] on a string of digits: the number, saturated at
    [ULONG_MAX], with [endptr] at the terminator. *)
Lemma strtoul_decimal (dm : data_model) (s : string) (n : Z) :
  decimal s = Some n ->
  strtoul_conv dm s
  = if n >? ULONG_MAX dm then (ULONG_MAX dm, "", Some ERANGE)
    else (n, "", None).
Proof.
  intros H. unfold strtoul_conv.
  destruct (decimal_head s n H) as [-> ->].
  destruct (scan_decimal s n H) as [m ->]. reflexivity.
Qed.

(** [%d] of a non-negative [int] is the string of digits denoting it. *)
Lemma decimal_pct_d (n : Z) : 0 <= n -> decimal (pct_d n) = Some n.
Proof.
  intros H. unfold decimal, pct_d.
  destruct n as [|p|p]; [reflexivity | | lia].
  simpl. rewrite NilZero.usu.
  - simpl. unfold Z.of_uint. now rewrite DecimalPos.Unsigned.of_to.
  - apply DecimalPos.Unsigned.to_uint_nonnil.
Qed.

(** [%d] prints the numeral of its argument, and a number has one
    numeral only. *)
Lemma numeral_pct_d (z : Z) : numeral (pct_d z) = Some z.
Proof.
  unfold numeral, pct_d. rewrite NilZero.isi.
  - assert (Hn : Decimal.norm (Z.to_int z) = Z.to_int z).
    { rewrite <- (DecimalZ.to_of (Z.to_int z)). now rewrite DecimalZ.of_to. }
    rewrite Hn, Decimal.internal_signed_int_dec_lb by reflexivity.
    now rewrite DecimalZ.of_to.
  - destruct z as [|q|q]; simpl; try discriminate.
    intros [= H]. now apply DecimalPos.Unsigned.to_uint_nonnil in H.
  - destruct z as [|q|q]; simpl; try discriminate.
    intros [= H]. now apply DecimalPos.Unsigned.to_uint_nonnil in H.
Qed.

Lemma numeral_unique (s s' : string) (z : Z) :
  numeral s = Some z -> numeral s' = Some z -> s = s'.
Proof.
  unfold numeral.
  destruct (NilZero.int_of_string s) as [d|] eqn:Hs; [| discriminate].
  destruct (NilZero.int_of_string s') as [d'|] eqn:Hs'; [| discriminate].
  destruct (Decimal.int_beq (Decimal.norm d) d) eqn:Hd; [| discriminate].
  destruct (Decimal.int_beq (Decimal.norm d') d') eqn:Hd'; [| discriminate].
  intros [= H] [= H']. apply Decimal.internal_signed_int_dec_bl in Hd, Hd'.
  assert (E : d = d').
  { rewrite <- Hd, <- Hd'. apply DecimalZ.of_inj. congruence. }
  subst d'. apply NilZero.sis in Hs, Hs'. congruence.
Qed.

(** ** Which size arguments are accepted *)

Lemma int_max_below_ulong_max (dm : data_model) : INT_MAX < ULONG_MAX dm.
Proof. destruct dm; reflexivity. Qed.

Lemma to_unsigned_small (n : Z) : 0 <= n <= UINT_MAX -> to_unsigned n = n.
Proof. intros H. unfold to_unsigned. apply Z.mod_small. lia. Qed.

Lemma to_int_small (n : Z) : n <= INT_MAX -> to_int n = n.
Proof.
  intros H. unfold to_int. destruct (Z.gtb_spec n INT_MAX); [lia | reflexivity].
Qed.

(** A string of digits denoting at most [INT_MAX] is accepted as that
    number, and the cast to [int] keeps it. *)
Lemma accepted_decimal (dm : data_model) (s : string) (n : Z) :
  decimal s = Some n -> n <= INT_MAX ->
  accepted_size dm s = Some n /\ to_int n = n.
Proof.
  intros Hd Hn. pose proof (decimal_nonneg s n Hd) as H0.
  pose proof (int_max_below_ulong_max dm) as Hu.
  split; [| now apply to_int_small].
  unfold accepted_size. rewrite (strtoul_decimal dm s n Hd).
  destruct (Z.gtb_spec n (ULONG_MAX dm)); [lia |].
  rewrite to_unsigned_small by (unfold INT_MAX, UINT_MAX in *; lia).
  simpl. destruct (Z.gtb_spec n INT_MAX); [lia | reflexivity].
Qed.

(** Anything left after the conversion makes the argument invalid. *)
Lemma trailing_rejected (dm : data_model) (s : string) :
  c_string s = true ->
  snd (fst (strtoul_conv dm s)) <> "" ->
  accepted_size dm s = None.
Proof.
  intros Hc He. unfold accepted_size.
  destruct (strtoul_endptr_suffix dm s) as [pre E].
  destruct (strtoul_conv dm s) as [[v endptr] e]. simpl in *.
  rewrite E in Hc. apply c_string_suffix in Hc.
  now rewrite (deref_c_string endptr Hc He).
Qed.

(** With a 32-bit [unsigned long] every number above [INT_MAX] is
    refused: [strtoul] saturates at [ULONG_MAX = UINT_MAX]. *)
Lemma above_int_max_ilp32 (s : string) (n : Z) :
  decimal s = Some n -> INT_MAX < n -> accepted_size ILP32 s = None.
Proof.
  intros Hd Hn. unfold accepted_size. rewrite (strtoul_decimal ILP32 s n Hd).
  destruct (Z.gtb_spec n (ULONG_MAX ILP32)) as [H|H]; [reflexivity |].
  simpl in H. rewrite to_unsigned_small by (unfold INT_MAX, UINT_MAX in *; lia).
  simpl. destruct (Z.gtb_spec n INT_MAX); [reflexivity | lia].
Qed.

(** With a 64-bit [unsigned long] the comparison sees only the low 32
    bits of the number. *)
Lemma accepted_decimal_lp64 (s : string) (n : Z) :
  decimal s = Some n -> n <= ULONG_MAX LP64 ->
  accepted_size LP64 s
  = if n mod 4294967296 >? INT_MAX then None else Some (n mod 4294967296).
Proof.
  intros Hd Hn. unfold accepted_size. rewrite (strtoul_decimal LP64 s n Hd).
  destruct (Z.gtb_spec n (ULONG_MAX LP64)); [lia |].
  reflexivity.
Qed.

Lemma skip_spaces_app (ws s : string) :
  all_spaces ws = true -> skip_spaces (ws ++ s) = skip_spaces s.
Proof.
  induction ws as [|c r IH]; simpl; [reflexivity |].
  intros H. apply andb_true_iff in H. destruct H as [-> H]. auto.
Qed.

Lemma strtoul_signed (dm : data_model) (ws sign digits : string) (n : Z) :
  all_spaces ws = true -> is_sign sign -> decimal digits = Some n ->
  n <= ULONG_MAX dm ->
  strtoul_conv dm (ws ++ sign ++ digits)
  = (if String.eqb sign "-" then (- n) mod (ULONG_MAX dm + 1) else n, "", None).
Proof.
  intros Hw Hs Hd Hn. unfold strtoul_conv.
  rewrite (skip_spaces_app _ _ Hw).
  destruct (decimal_head digits n Hd) as [E1 E2].
  destruct (scan_decimal digits n Hd) as [m E3].
  destruct Hs as [-> | [-> | ->]]; simpl append.
  - rewrite E1, E2, E3. destruct (Z.gtb_spec n (ULONG_MAX dm)); [lia | reflexivity].
  - change (skip_spaces (String "+" digits)) with (String "+" digits).
    change (scan_sign (String "+" digits)) with (false, digits).
    cbv beta iota. rewrite E3.
    destruct (Z.gtb_spec n (ULONG_MAX dm)); [lia | reflexivity].
  - change (skip_spaces (String "-" digits)) with (String "-" digits).
    change (scan_sign (String "-" digits)) with (true, digits).
    cbv beta iota. rewrite E3.
    destruct (Z.gtb_spec n (ULONG_MAX dm)); [lia | reflexivity].
Qed.

Lemma accepted_signed (dm : data_model) (ws sign digits : string) (n : Z) :
  all_spaces ws = true -> is_sign sign -> decimal digits = Some n ->
  n <= ULONG_MAX dm -> converted dm sign n <= INT_MAX ->
  accepted_size dm (ws ++ sign ++ digits) = Some (converted dm sign n).
Proof.
  intros Hw Hs Hd Hn Hc. unfold accepted_size.
  rewrite (strtoul_signed dm ws sign digits n Hw Hs Hd Hn).
  fold (converted dm sign n). simpl.
  destruct (Z.gtb_spec (converted dm sign n) INT_MAX); [lia | reflexivity].
Qed.


(** A string that starts with white space or a sign is not a string of
    digits. *)
Lemma uint_of_char_space (c : ascii) (d : option uint) :
  isspace c = true -> uint_of_char c d = None.
Proof.
  destruct d; [| reflexivity].
  destruct c as [[] [] [] [] [] [] [] []]; try discriminate; reflexivity.
Qed.

Lemma not_decimal_prefix (ws sign digits : string) :
  all_spaces ws = true -> is_sign sign -> ws ++ sign <> "" ->
  decimal (ws ++ sign ++ digits) = None.
Proof.
  intros Hw Hs Hne. unfold decimal, NilZero.uint_of_string.
  destruct ws as [|c ws]; simpl in *.
  - destruct Hs as [-> | [-> | ->]]; [congruence | |]; simpl;
      now destruct (NilEmpty.uint_of_string digits).
  - apply andb_true_iff in Hw. destruct Hw as [Hc _].
    now rewrite (uint_of_char_space c _ Hc).
Qed.

(** ** The claims *)

Section Claims.

Variable os : OS.
Variable dm : data_model.
Variable strerror : Z -> string.

(** Split a run into its five cases, dropping those that contradict
    what is known about the arguments and the kernel's answers. *)
Ltac same_call :=
  repeat match goal with
    | H1 : ?c = (?a, ?b), H2 : ?c = (?a', ?b') |- _ =>
        rewrite H1 in H2; injection H2 as <- <-
    | H1 : ?c = Some ?a, H2 : ?c = Some ?a' |- _ =>
        rewrite H1 in H2; injection H2 as <-
    end.
Ltac run_cases H :=
  apply exec_inv in H; inversion H; subst; clear H;
  unfold arity_ok, arg in *; simpl in *; same_call;
  try congruence; try lia.
Ltac in_trace H :=
  repeat (destruct H as [H | H]); try discriminate H; try contradiction.

(** C2: with an argument count other than 2 or 3 the program writes the
    usage message to standard error and exits with code 1; no system
    call is made, so the kernel is left as it was. *)
Theorem usage_error argv k code tr k' :
  List.length argv <> 2%nat -> List.length argv <> 3%nat ->
  exec os dm strerror argv k = (code, tr, k') ->
  code = 1 /\ tr = [Stderr (usage_msg argv)] /\
  filter is_syscall tr = [] /\ k' = k.
Proof.
  intros H2 H3 H. rewrite exec_usage in H by (unfold arity_ok; lia).
  injection H as <- <- <-. auto.
Qed.

(** C3: when [open] returns -1 the program writes a diagnostic holding
    the path and the text of the error to standard error and exits with
    code 2, without any control call. *)
Theorem open_failure argv k r k1 code tr k' :
  arity_ok argv ->
  sys_open os (arg argv 1) O_RDWR k = (r, k1) -> rv r = -1 ->
  exec os dm strerror argv k = (code, tr, k') ->
  code = 2 /\ control_calls tr = [] /\
  exists msg,
    tr = [Open (arg argv 1) O_RDWR r; Stderr msg] /\
    includes msg (arg argv 1) /\ includes msg (strerror (err r)).
Proof.
  intros Ha Ho Hr H. run_cases H.
  repeat split. eexists. split; [reflexivity |]. split.
  - apply includes_mid.
  - unfold open_failed_msg.
    rewrite <- (append_assoc (nth 1 argv "")), <- append_assoc.
    apply includes_mid.
Qed.

(** C4: when the control call, get or set, returns -1 the program
    writes a message holding the text of the error, closes the handle
    and exits with code 4. *)
Theorem control_failure argv k code tr k' fd cmd f :
  exec os dm strerror argv k = (code, tr, k') ->
  In (Fcntl fd cmd f) tr -> rv f = -1 ->
  code = 4 /\
  includes (op_failed_msg strerror (err f)) (strerror (err f)) /\
  exists r c,
    rv r = fd /\
    tr = [Open (arg argv 1) O_RDWR r; Fcntl fd cmd f;
          Stderr (op_failed_msg strerror (err f)); Close fd c].
Proof.
  intros H Hin Hf. split; [| split; [apply includes_mid |]];
    run_cases H; in_trace Hin; injection Hin as <- <- <-;
    try congruence; eauto.
Qed.

(** C5: when the control call succeeds the program prints its result
    in decimal and a newline, and nothing else, on standard output,
    closes the handle and exits with code 0.  What is printed is the
    numeral of the result (the only string that denotes it in normal
    form) followed by the line feed character, in a single write. *)
Theorem control_success argv k code tr k' fd cmd f :
  exec os dm strerror argv k = (code, tr, k') ->
  In (Fcntl fd cmd f) tr -> rv f <> -1 ->
  code = 0 /\ stdout_of tr = pct_d (rv f) ++ nl /\
  (exists text,
     numeral text = Some (rv f) /\
     stdout_of tr = text ++ String "010"%char "" /\
     outputs tr = [Stdout (text ++ String "010"%char "")]) /\
  exists r c,
    rv r = fd /\
    tr = [Open (arg argv 1) O_RDWR r; Fcntl fd cmd f;
          Stdout (pct_d (rv f) ++ nl); Close fd c].
Proof.
  intros H Hin Hf. run_cases H; in_trace Hin; injection Hin as <- <- <-;
    try congruence.
  simpl. rewrite append_empty_r. repeat split.
  - eexists. split; [apply numeral_pct_d |]. now split.
  - eauto.
Qed.

(** C6: with one positional argument and a path that opens, the only
    control call is the query F_GETPIPE_SZ on the opened handle; when it
    succeeds the program exits with code 0 and prints the digits of the
    size the kernel reported, a non-negative number. *)
Theorem query_size prog path k r k1 f k2 code tr k' :
  sys_open os path O_RDWR k = (r, k1) -> rv r <> -1 ->
  sys_fcntl os (rv r) F_GETPIPE_SZ k1 = (f, k2) ->
  (rv f = -1 \/ 0 <= rv f) ->
  exec os dm strerror [prog; path] k = (code, tr, k') ->
  control_calls tr = [Fcntl (rv r) F_GETPIPE_SZ f] /\
  (rv f <> -1 ->
   code = 0 /\
   exists digits,
     stdout_of tr = digits ++ nl /\ decimal digits = Some (rv f)).
Proof.
  intros Ho Hr Hf Hk H. run_cases H;
    match goal with Hq : Some _ = Some _ |- _ => injection Hq as <- end;
    same_call; (split; [reflexivity |]); intros Hs; [congruence |].
  split; [reflexivity |]. exists (pct_d (rv f)). simpl.
  rewrite append_empty_r. split; [reflexivity |].
  apply decimal_pct_d. lia.
Qed.

(** C7: with a path that opens and a string of digits denoting
    [n <= INT_MAX], the only control call is F_SETPIPE_SZ with value [n]
    (the conversions to [unsigned] and to [int] keep it); the program
    then exits with code 0 having printed a value at least [n], or with
    code 4 when the kernel refuses.  The value printed is the result of
    the call: standard output is one write of the digits that denote it,
    in normal form, and the line feed character. *)
Theorem resize prog path size n k r k1 f k2 code tr k' :
  decimal size = Some n -> n <= INT_MAX ->
  sys_open os path O_RDWR k = (r, k1) -> rv r <> -1 ->
  sys_fcntl os (rv r) (F_SETPIPE_SZ n) k1 = (f, k2) ->
  (rv f = -1 \/ n <= rv f) ->
  exec os dm strerror [prog; path; size] k = (code, tr, k') ->
  to_int (to_unsigned n) = n /\
  control_calls tr = [Fcntl (rv r) (F_SETPIPE_SZ n) f] /\
  ((code = 0 /\ rv f <> -1 /\ n <= rv f /\
    exists digits,
      decimal digits = Some (rv f) /\ numeral digits = Some (rv f) /\
      stdout_of tr = digits ++ String "010"%char "" /\
      outputs tr = [Stdout (digits ++ String "010"%char "")]) \/
   (code = 4 /\ rv f = -1 /\ stdout_of tr = "")).
Proof.
  intros Hd Hn Ho Hr Hf Hk H.
  destruct (accepted_decimal dm size n Hd Hn) as [Ha Hi].
  pose proof (decimal_nonneg size n Hd) as H0.
  split.
  { rewrite to_unsigned_small by (unfold INT_MAX, UINT_MAX in *; lia).
    exact Hi. }
  run_cases H;
    match goal with
    | Hq : option_map _ (accepted_size _ _) = Some _ |- _ =>
        rewrite Ha in Hq; simpl in Hq; rewrite Hi in Hq;
        injection Hq as <-
    end; same_call; (split; [reflexivity |]).
  - right. auto.
  - left. split; [reflexivity |]. split; [assumption |].
    assert (Hge : n <= rv f) by lia. split; [exact Hge |].
    exists (pct_d (rv f)). rewrite append_empty_r.
    split; [apply decimal_pct_d; lia |].
    split; [apply numeral_pct_d |]. now split.
Qed.

(** C8: once [open] has succeeded the run ends with exit code 3, 4 or 0,
    and in each case the handle is closed exactly once, as the last
    thing the program does. *)
Theorem handle_closed_once argv k code tr k' path flags r :
  exec os dm strerror argv k = (code, tr, k') ->
  In (Open path flags r) tr -> rv r <> -1 ->
  (code = 3 \/ code = 4 \/ code = 0) /\
  exists pre c,
    tr = (pre ++ [Close (rv r) c])%list /\ closes tr = [Close (rv r) c].
Proof.
  intros H Hin Hr. run_cases H; in_trace Hin; injection Hin as <- <- <-;
    try congruence; (split; [auto |]).
  - eexists [_; _], _. split; reflexivity.
  - eexists [_; _; _], _. split; reflexivity.
  - eexists [_; _; _], _. split; reflexivity.
Qed.

(** C9: what a query prints is a function of the size the kernel
    reported; so two queries in succession, the second starting from the
    kernel state the first left, print the same when the kernel reports
    the same size to both. *)
Theorem query_idempotent prog path k code1 tr1 k1 code2 tr2 k2 :
  exec os dm strerror [prog; path] k = (code1, tr1, k1) ->
  exec os dm strerror [prog; path] k1 = (code2, tr2, k2) ->
  option_map rv (reported_size tr1) = option_map rv (reported_size tr2) ->
  stdout_of tr1 = query_output (option_map rv (reported_size tr1)) /\
  stdout_of tr2 = stdout_of tr1.
Proof.
  intros H1 H2 E.
  assert (Hfun : forall k0 code tr k0',
             exec os dm strerror [prog; path] k0 = (code, tr, k0') ->
             stdout_of tr = query_output (option_map rv (reported_size tr))).
  { intros k0 code tr k0' H. run_cases H;
      match goal with Hq : Some _ = Some _ |- _ => injection Hq as <- end;
      simpl.
    - match goal with Hf : rv _ = -1 |- _ => now rewrite Hf end.
    - destruct (Z.eqb_spec (rv f) (-1)); [congruence |].
      now rewrite append_empty_r. }
  split; [now apply (Hfun k code1 tr1 k1) |].
  now rewrite (Hfun _ _ _ _ H1), (Hfun _ _ _ _ H2), E.
Qed.

(** What rejecting the size argument looks like: the message, the
    close, exit code 3 and no control call. *)
Lemma rejected_exit3 prog path size k r k1 code tr k' :
  sys_open os path O_RDWR k = (r, k1) -> rv r <> -1 ->
  accepted_size dm size = None ->
  exec os dm strerror [prog; path; size] k = (code, tr, k') ->
  code = 3 /\ control_calls tr = [] /\
  exists c, tr = [Open path O_RDWR r; Stderr bad_size_msg; Close (rv r) c].
Proof.
  intros Ho Hr Ha H. run_cases H;
    try match goal with
      | Hq : option_map _ (accepted_size _ _) = Some _ |- _ =>
          rewrite Ha in Hq; discriminate Hq
      end.
  repeat split. eauto.
Qed.

(** The half of C1 that holds everywhere: characters left after the
    conversion lead to exit code 3 without a control call. *)
Lemma trailing_exit3 prog path size k r k1 code tr k' :
  c_string size = true ->
  snd (fst (strtoul_conv dm size)) <> "" ->
  sys_open os path O_RDWR k = (r, k1) -> rv r <> -1 ->
  exec os dm strerror [prog; path; size] k = (code, tr, k') ->
  code = 3 /\ control_calls tr = [].
Proof.
  intros Hc He Ho Hr H.
  destruct (rejected_exit3 prog path size k r k1 code tr k' Ho Hr
              (trailing_rejected dm size Hc He) H) as (? & ? & _).
  auto.
Qed.

(** An accepted size is what the set request carries. *)
Lemma accepted_request prog path size v k r k1 code tr k' :
  sys_open os path O_RDWR k = (r, k1) -> rv r <> -1 ->
  accepted_size dm size = Some v -> v <= INT_MAX ->
  exec os dm strerror [prog; path; size] k = (code, tr, k') ->
  code <> 3 /\
  exists f, control_calls tr = [Fcntl (rv r) (F_SETPIPE_SZ v) f].
Proof.
  intros Ho Hr Ha Hv H. run_cases H;
    match goal with
    | Hq : option_map _ (accepted_size _ _) = Some _ |- _ =>
        rewrite Ha in Hq; simpl in Hq; rewrite (to_int_small v Hv) in Hq;
        injection Hq as <-
    end; (split; [discriminate | eauto]).
Qed.

(** C10: some size arguments that are not strings of digits are
    accepted all the same, and a set request is issued instead of exit
    code 3: the empty string, as 0; and digits behind white space or a
    sign (or both), as the converted value, when that is at most
    [INT_MAX]. *)
Theorem lenient_sizes prog path k r k1 ws sign digits n
        code0 tr0 k0 code tr k' :
  sys_open os path O_RDWR k = (r, k1) -> rv r <> -1 ->
  exec os dm strerror [prog; path; ""] k = (code0, tr0, k0) ->
  all_spaces ws = true -> is_sign sign -> ws ++ sign <> "" ->
  decimal digits = Some n -> n <= ULONG_MAX dm ->
  converted dm sign n <= INT_MAX ->
  exec os dm strerror [prog; path; ws ++ sign ++ digits] k
    = (code, tr, k') ->
  (decimal "" = None /\ code0 <> 3 /\
   exists f, control_calls tr0 = [Fcntl (rv r) (F_SETPIPE_SZ 0) f]) /\
  (decimal (ws ++ sign ++ digits) = None /\ code <> 3 /\
   exists f,
     control_calls tr
     = [Fcntl (rv r) (F_SETPIPE_SZ (converted dm sign n)) f]).
Proof.
  intros Ho Hr H0 Hw Hs Hne Hd Hn Hc H. split; split.
  - reflexivity.
  - apply (accepted_request prog path "" 0 k r k1 code0 tr0 k0); auto.
    discriminate.
  - now apply not_decimal_prefix.
  - apply (accepted_request prog path (ws ++ sign ++ digits) _
             k r k1 code tr k'); auto.
    now apply accepted_signed.
Qed.

End Claims.

Section DataModelLP64.

Variable os : OS.
Variable strerror : Z -> string.

(** C1, where the code departs from it: with a 64-bit [unsigned long],
    a string of digits denoting a number above [INT_MAX] whose low 32
    bits are at most [INT_MAX] is not refused; the program issues the set
    request with those low 32 bits and does not exit with code 3. *)
Theorem oversized_accepted_lp64 prog path size n k r k1 code tr k' :
  decimal size = Some n -> INT_MAX < n -> n <= ULONG_MAX LP64 ->
  n mod 4294967296 <= INT_MAX ->
  sys_open os path O_RDWR k = (r, k1) -> rv r <> -1 ->
  exec os LP64 strerror [prog; path; size] k = (code, tr, k') ->
  code <> 3 /\
  exists f,
    control_calls tr = [Fcntl (rv r) (F_SETPIPE_SZ (n mod 4294967296)) f].
Proof.
  intros Hd Hbig Hn Hlow Ho Hr H.
  apply (accepted_request os LP64 strerror prog path size _
           k r k1 code tr k'); auto.
  rewrite (accepted_decimal_lp64 size n Hd Hn).
  destruct (Z.gtb_spec (n mod 4294967296) INT_MAX); [lia | reflexivity].
Qed.

(** With a 32-bit [unsigned long] the same numbers are refused. *)
Lemma oversized_exit3_ilp32 prog path size n k r k1 code tr k' :
  decimal size = Some n -> INT_MAX < n ->
  sys_open os path O_RDWR k = (r, k1) -> rv r <> -1 ->
  exec os ILP32 strerror [prog; path; size] k = (code, tr, k') ->
  code = 3 /\ control_calls tr = [].
Proof.
  intros Hd Hbig Ho Hr H.
  destruct (rejected_exit3 os ILP32 strerror prog path size k r k1 code tr k'
              Ho Hr (above_int_max_ilp32 size n Hd Hbig) H) as (? & ? & _).
  auto.
Qed.

End DataModelLP64.

(** ** The claims on the reference kernel

    Each theorem above with hypotheses is applied here to a concrete
    invocation on [RefKernel], whose single FIFO [/tmp/myfifo] starts with
    a capacity of 65536 bytes. *)

Section Witnesses.

Import RefKernel.

Lemma usage_error_witness :
  let out := pipe_resize ["pipe_resize"] boot in
  exit_of out = 1 /\
  trace_of out = [Stderr (usage_msg ["pipe_resize"])] /\
  filter is_syscall (trace_of out) = [] /\
  kernel_of out = boot.
Proof.
  intros out.
  apply (usage_error RefKernel.os LP64 RefKernel.strerror
           ["pipe_resize"] boot
           (exit_of out) (trace_of out) (kernel_of out));
    [discriminate | discriminate | reflexivity].
Defined.

Lemma open_failure_witness :
  let argv := ["pipe_resize"; "/tmp/nosuchfifo"] in
  let out := pipe_resize argv boot in
  exit_of out = 2 /\ control_calls (trace_of out) = [] /\
  exists msg,
    trace_of out = [Open "/tmp/nosuchfifo" O_RDWR (fail ENOENT); Stderr msg] /\
    includes msg "/tmp/nosuchfifo" /\
    includes msg "No such file or directory".
Proof.
  intros argv out.
  apply (open_failure RefKernel.os LP64 RefKernel.strerror
           argv boot (fail ENOENT) boot
           (exit_of out) (trace_of out) (kernel_of out));
    [left; reflexivity | reflexivity | reflexivity | reflexivity].
Defined.

Lemma control_failure_witness :
  let argv := ["pipe_resize"; "/tmp/myfifo"; "2000000"] in
  let out := pipe_resize argv boot in
  exit_of out = 4 /\
  includes (op_failed_msg RefKernel.strerror EPERM) "Operation not permitted" /\
  exists r c,
    rv r = 3 /\
    trace_of out
    = [Open "/tmp/myfifo" O_RDWR r; Fcntl 3 (F_SETPIPE_SZ 2000000) (fail EPERM);
       Stderr (op_failed_msg RefKernel.strerror EPERM); Close 3 c].
Proof.
  intros argv out.
  apply (control_failure RefKernel.os LP64 RefKernel.strerror
           argv boot (exit_of out) (trace_of out) (kernel_of out)
           3 (F_SETPIPE_SZ 2000000) (fail EPERM));
    [reflexivity | right; left; reflexivity | reflexivity].
Defined.

Lemma control_success_witness :
  let argv := ["pipe_resize"; "/tmp/myfifo"] in
  let out := pipe_resize argv boot in
  exit_of out = 0 /\ stdout_of (trace_of out) = "65536" ++ nl /\
  (exists text,
     numeral text = Some 65536 /\
     stdout_of (trace_of out) = text ++ String "010"%char "" /\
     outputs (trace_of out) = [Stdout (text ++ String "010"%char "")]) /\
  exists r c,
    rv r = 3 /\
    trace_of out
    = [Open "/tmp/myfifo" O_RDWR r; Fcntl 3 F_GETPIPE_SZ (ok 65536);
       Stdout ("65536" ++ nl); Close 3 c].
Proof.
  intros argv out.
  apply (control_success RefKernel.os LP64 RefKernel.strerror
           argv boot (exit_of out) (trace_of out) (kernel_of out)
           3 F_GETPIPE_SZ (ok 65536));
    [reflexivity | right; left; reflexivity | discriminate].
Defined.

Lemma query_size_witness :
  let out := pipe_resize ["pipe_resize"; "/tmp/myfifo"] boot in
  control_calls (trace_of out) = [Fcntl 3 F_GETPIPE_SZ (ok 65536)] /\
  (65536 <> -1 ->
   exit_of out = 0 /\
   exists digits,
     stdout_of (trace_of out) = digits ++ nl /\
     decimal digits = Some 65536).
Proof.
  intros out.
  apply (query_size RefKernel.os LP64 RefKernel.strerror
           "pipe_resize" "/tmp/myfifo" boot
           (ok 3) {| capacity := 65536; fds := [3] |}
           (ok 65536) {| capacity := 65536; fds := [3] |}
           (exit_of out) (trace_of out) (kernel_of out));
    [reflexivity | discriminate | reflexivity | right; discriminate
    | reflexivity].
Defined.

Lemma resize_witness :
  let out := pipe_resize ["pipe_resize"; "/tmp/myfifo"; "1048576"] boot in
  to_int (to_unsigned 1048576) = 1048576 /\
  control_calls (trace_of out)
  = [Fcntl 3 (F_SETPIPE_SZ 1048576) (ok 1048576)] /\
  ((exit_of out = 0 /\ 1048576 <> -1 /\ 1048576 <= 1048576 /\
    exists digits,
      decimal digits = Some 1048576 /\ numeral digits = Some 1048576 /\
      stdout_of (trace_of out) = digits ++ String "010"%char "" /\
      outputs (trace_of out) = [Stdout (digits ++ String "010"%char "")]) \/
   (exit_of out = 4 /\ 1048576 = -1 /\ stdout_of (trace_of out) = "")).
Proof.
  intros out.
  apply (resize RefKernel.os LP64 RefKernel.strerror
           "pipe_resize" "/tmp/myfifo" "1048576" 1048576 boot
           (ok 3) {| capacity := 65536; fds := [3] |}
           (ok 1048576) {| capacity := 1048576; fds := [3] |}
           (exit_of out) (trace_of out) (kernel_of out));
    [reflexivity | discriminate | reflexivity | discriminate | reflexivity
    | right; discriminate | reflexivity].
Defined.

Lemma handle_closed_once_witness :
  let out := pipe_resize ["pipe_resize"; "/tmp/myfifo"; "100x"] boot in
  (exit_of out = 3 \/ exit_of out = 4 \/ exit_of out = 0) /\
  exists pre c,
    trace_of out = (pre ++ [Close 3 c])%list /\
    closes (trace_of out) = [Close 3 c].
Proof.
  intros out.
  apply (handle_closed_once RefKernel.os LP64 RefKernel.strerror
           ["pipe_resize"; "/tmp/myfifo"; "100x"] boot
           (exit_of out) (trace_of out) (kernel_of out)
           "/tmp/myfifo" O_RDWR (ok 3));
    [reflexivity | left; reflexivity | discriminate].
Defined.

Lemma query_idempotent_witness :
  let first := pipe_resize ["pipe_resize"; "/tmp/myfifo"] boot in
  let second := pipe_resize ["pipe_resize"; "/tmp/myfifo"] (kernel_of first) in
  stdout_of (trace_of first) = query_output (Some 65536) /\
  stdout_of (trace_of second) = stdout_of (trace_of first).
Proof.
  intros first second.
  apply (query_idempotent RefKernel.os LP64 RefKernel.strerror
           "pipe_resize" "/tmp/myfifo" boot
           (exit_of first) (trace_of first) (kernel_of first)
           (exit_of second) (trace_of second) (kernel_of second));
    reflexivity.
Defined.

Lemma lenient_sizes_witness :
  let empty := pipe_resize ["pipe_resize"; "/tmp/myfifo"; ""] boot in
  let signed := pipe_resize ["pipe_resize"; "/tmp/myfifo"; " +5"] boot in
  (decimal "" = None /\ exit_of empty <> 3 /\
   exists f, control_calls (trace_of empty) = [Fcntl 3 (F_SETPIPE_SZ 0) f]) /\
  (decimal " +5" = None /\ exit_of signed <> 3 /\
   exists f, control_calls (trace_of signed) = [Fcntl 3 (F_SETPIPE_SZ 5) f]).
Proof.
  intros empty signed.
  apply (lenient_sizes RefKernel.os LP64 RefKernel.strerror
           "pipe_resize" "/tmp/myfifo" boot
           (ok 3) {| capacity := 65536; fds := [3] |}
           " " "+" "5" 5
           (exit_of empty) (trace_of empty) (kernel_of empty)
           (exit_of signed) (trace_of signed) (kernel_of signed));
    [reflexivity | discriminate | reflexivity | reflexivity
    | right; left; reflexivity | discriminate | reflexivity
    | discriminate | discriminate | reflexivity].
Defined.

Lemma oversized_accepted_lp64_witness :
  let out := pipe_resize ["pipe_resize"; "/tmp/myfifo"; "99999999999"] boot in
  exit_of out <> 3 /\
  exists f,
    control_calls (trace_of out) = [Fcntl 3 (F_SETPIPE_SZ 1215752191) f].
Proof.
  intros out.
  apply (oversized_accepted_lp64 RefKernel.os RefKernel.strerror
           "pipe_resize" "/tmp/myfifo" "99999999999" 99999999999 boot
           (ok 3) {| capacity := 65536; fds := [3] |}
           (exit_of out) (trace_of out) (kernel_of out));
    [reflexivity | reflexivity | discriminate | discriminate | reflexivity
    | discriminate | reflexivity].
Defined.

(** The invocations the descriptions of the tool give as examples, and
    the two oversized sizes that get through on an LP64 machine. *)
Example documented_runs :
  exit_of (pipe_resize ["pipe_resize"; "/tmp/myfifo"] boot) = 0 /\
  stdout_of (trace_of (pipe_resize ["pipe_resize"; "/tmp/myfifo"] boot))
  = "65536" ++ nl /\
  exit_of (pipe_resize ["pipe_resize"; "/tmp/myfifo"; "abc"] boot) = 3 /\
  exit_of (pipe_resize ["pipe_resize"; "/tmp/myfifo"; "100x"] boot) = 3 /\
  exit_of (pipe_resize ["pipe_resize"; "/tmp/nosuchfifo"] boot) = 2.
Proof. repeat split. Qed.

Example oversized_runs :
  pipe_resize ["pipe_resize"; "/tmp/myfifo"; "4294967296"] boot
  = (0,
     [Open "/tmp/myfifo" O_RDWR (ok 3);
      Fcntl 3 (F_SETPIPE_SZ 0) (ok 4096);
      Stdout ("4096" ++ nl); Close 3 (ok 0)],
     {| capacity := 4096; fds := [] |}) /\
  pipe_resize ["pipe_resize"; "/tmp/myfifo"; "99999999999"] boot
  = (4,
     [Open "/tmp/myfifo" O_RDWR (ok 3);
      Fcntl 3 (F_SETPIPE_SZ 1215752191) (fail EPERM);
      Stderr (op_failed_msg RefKernel.strerror EPERM); Close 3 (ok 0)],
     boot) /\
  exit_of (exec RefKernel.os ILP32 RefKernel.strerror
             ["pipe_resize"; "/tmp/myfifo"; "99999999999"] boot) = 3.
Proof. repeat split. Qed.

Example lenient_examples (dm : data_model) :
  accepted_size dm "" = Some 0 /\ accepted_size dm "-0" = Some 0 /\
  accepted_size dm "+5" = Some 5 /\ accepted_size dm " 5" = Some 5 /\
  accepted_size dm "-1" = None.
Proof. destruct dm; repeat split. Qed.

End Witnesses.

(** * Further properties of [main] *)

(** ** More on the size argument *)

(** Whatever is accepted fits an [int], so the cast keeps it. *)
Lemma accepted_size_range (dm : data_model) (s : string) (v : Z) :
  accepted_size dm s = Some v -> 0 <= v <= INT_MAX.
Proof.
  unfold accepted_size. destruct (strtoul_conv dm s) as [[u endptr] e].
  destruct (negb (Ascii.eqb (deref endptr) NUL)); simpl; [discriminate |].
  destruct (Z.gtb_spec (to_unsigned u) INT_MAX); [discriminate |].
  intros [= <-]. split; [| assumption].
  unfold to_unsigned. apply Z.mod_pos_bound. reflexivity.
Qed.

(** The acceptance of a string of digits, in either data model. *)
Lemma accepted_decimal_any (dm : data_model) (s : string) (n : Z) :
  decimal s = Some n ->
  accepted_size dm s
  = if (n >? ULONG_MAX dm) || (n mod 4294967296 >? INT_MAX) then None
    else Some (n mod 4294967296).
Proof.
  intros Hd. unfold accepted_size. rewrite (strtoul_decimal dm s n Hd).
  destruct (Z.gtb_spec n (ULONG_MAX dm)); [now destruct dm | reflexivity].
Qed.

Lemma append_nl_inj (a b : string) : a ++ nl = b ++ nl -> a = b.
Proof.
  revert b. induction a as [|x a IH]; intros [|y b] H; simpl in *.
  - reflexivity.
  - injection H as _ H. now destruct b.
  - injection H as _ H. now destruct a.
  - injection H as -> H. now rewrite (IH b H).
Qed.

(** Digits followed by something that is not a digit: the scan stops
    there. *)
Lemma scan_digits_stop (s rest : string) :
  isdigit (deref rest) = false ->
  forall d acc n,
    NilEmpty.uint_of_string s = Some d ->
    scan_digits (s ++ rest) acc n
    = (fst (fst (scan_digits s acc n)), (n + String.length s)%nat, rest).
Proof.
  intros Hrest. induction s as [|c r IH]; intros d acc n H.
  - simpl. rewrite Nat.add_0_r. destruct rest as [|c r]; [reflexivity |].
    simpl in Hrest. cbn [scan_digits]. now rewrite Hrest.
  - simpl in H.
    destruct (NilEmpty.uint_of_string r) as [d'|] eqn:Hr; [| discriminate].
    apply uint_of_char_spec in H.
    assert (Hc : isdigit c = true).
    { repeat (destruct H as [[-> _]|H]); try destruct H as [-> _];
        reflexivity. }
    cbn [append scan_digits String.length]. rewrite Hc, (IH d' _ _ eq_refl).
    f_equal. f_equal. lia.
Qed.

(** No digit where the number should start: nothing is converted. *)
Lemma strtoul_no_digits (dm : data_model) (s : string) :
  isdigit (first_subject_char s) = false ->
  strtoul_conv dm s = (0, s, None).
Proof.
  unfold first_subject_char, strtoul_conv.
  destruct (scan_sign (skip_spaces s)) as [neg s1]. simpl.
  destruct s1 as [|c r]; simpl; [reflexivity |].
  now intros ->.
Qed.

Section Discipline.

Variable os : OS.
Variable dm : data_model.
Variable strerror : Z -> string.

Ltac same_answer :=
  repeat match goal with
    | H1 : ?c = (?a, ?b), H2 : ?c = (?a', ?b') |- _ =>
        rewrite H1 in H2; injection H2 as <- <-
    | H1 : ?c = Some ?a, H2 : ?c = Some ?a' |- _ =>
        rewrite H1 in H2; injection H2 as <-
    end.
Ltac by_run H :=
  apply exec_inv in H; inversion H; subst; clear H;
  unfold arity_ok, arg in *; simpl in *; same_answer.
Ltac member H :=
  repeat (destruct H as [H | H]); try discriminate H; try contradiction.

(** What [request] can be. *)
Lemma request_kind argv cmd :
  request dm argv = Some cmd ->
  (List.length argv = 2%nat /\ cmd = F_GETPIPE_SZ) \/
  (List.length argv = 3%nat /\
   exists v, accepted_size dm (arg argv 2) = Some v /\ 0 <= v <= INT_MAX /\
             cmd = F_SETPIPE_SZ v).
Proof.
  destruct argv as [|a0 [|a1 [|a2 [|a3 l]]]]; simpl; try discriminate.
  - intros [= <-]. now left.
  - unfold arg. simpl. destruct (accepted_size dm a2) as [v|] eqn:Ha;
      simpl; [| discriminate].
    intros [= <-]. right. split; [reflexivity |]. exists v.
    pose proof (accepted_size_range dm a2 v Ha) as Hv.
    rewrite to_int_small by lia. auto.
Qed.

(** X1: every run ends with an exit code from 0 to 4; exit code 0 goes
    with exactly one line on standard output and nothing on standard
    error, every other exit code with exactly one message on standard
    error and nothing on standard output. *)
Theorem exit_discipline argv k code tr k' :
  exec os dm strerror argv k = (code, tr, k') ->
  (code = 0 /\ diagnostics tr = [] /\
   exists v, outputs tr = [Stdout (pct_d v ++ nl)]) \/
  ((code = 1 \/ code = 2 \/ code = 3 \/ code = 4) /\ outputs tr = [] /\
   exists msg, diagnostics tr = [Stderr msg]).
Proof.
  intros H. by_run H.
  - right. repeat split; eauto.
  - right. repeat split; eauto.
  - right. repeat split; eauto.
  - right. repeat split; eauto 6.
  - left. repeat split; eauto.
Qed.

(** X2: the system calls of a run are, in this order, at most one
    [open], always of [argv[1]] read-write, at most one [fcntl] and at
    most one [close]; [fcntl] and [close] are only ever applied to the
    descriptor a successful [open] returned, and a successful [open] is
    always followed by a [close]. *)
Theorem syscall_discipline argv k code tr k' :
  exec os dm strerror argv k = (code, tr, k') ->
  syscalls tr = [] \/
  (exists r, rv r = -1 /\ syscalls tr = [Open (arg argv 1) O_RDWR r]) \/
  (exists r c,
     rv r <> -1 /\
     syscalls tr = [Open (arg argv 1) O_RDWR r; Close (rv r) c]) \/
  (exists r cmd f c,
     rv r <> -1 /\
     syscalls tr = [Open (arg argv 1) O_RDWR r; Fcntl (rv r) cmd f;
                    Close (rv r) c]).
Proof.
  intros H. by_run H.
  - now left.
  - right; left. eauto.
  - right; right; left. eauto.
  - right; right; right. eauto 6.
  - right; right; right. eauto 6.
Qed.

(** X3: the kind of control request depends on the argument count
    alone, a query with one positional argument and a set request with
    two; and the value a set request carries is never negative and never
    above [INT_MAX]. *)
Theorem request_discipline argv k code tr k' fd cmd f :
  exec os dm strerror argv k = (code, tr, k') ->
  In (Fcntl fd cmd f) tr ->
  match cmd with
  | F_GETPIPE_SZ => List.length argv = 2%nat
  | F_SETPIPE_SZ v => List.length argv = 3%nat /\ 0 <= v <= INT_MAX
  end.
Proof.
  intros H Hin. by_run H; member Hin; injection Hin as <- <- <-;
    match goal with
    | Hq : request dm argv = Some _ |- _ =>
        destruct (request_kind argv _ Hq) as [[Hl ->] | [Hl (v & _ & Hv & ->)]]
    end; auto.
Qed.

End Discipline.

(** ** Size arguments, end to end *)

Lemma digit_not_space_sign (c : ascii) :
  isdigit c = true ->
  isspace c = false /\ Ascii.eqb c "-" = false /\ Ascii.eqb c "+" = false.
Proof.
  destruct c as [[] [] [] [] [] [] [] []]; try discriminate; now repeat split.
Qed.

Lemma decimal_first_digit (s : string) (n : Z) :
  decimal s = Some n -> exists c r, s = String c r /\ isdigit c = true.
Proof.
  unfold decimal, NilZero.uint_of_string. destruct s as [|c r]; [discriminate|].
  simpl. destruct (NilEmpty.uint_of_string r) as [d|]; [| discriminate].
  destruct (uint_of_char c (Some d)) as [d'|] eqn:H; [| discriminate].
  intros _. exists c, r. split; [reflexivity |].
  apply uint_of_char_spec in H.
  repeat (destruct H as [[-> _]|H]); try destruct H as [-> _]; reflexivity.
Qed.

(** With something that is not a digit behind the number, [endptr] is
    left pointing at it. *)
Lemma strtoul_endptr_stop (dm : data_model) (ws sign digits rest : string)
      (n : Z) :
  all_spaces ws = true -> is_sign sign -> decimal digits = Some n ->
  isdigit (deref rest) = false ->
  snd (fst (strtoul_conv dm (ws ++ sign ++ digits ++ rest))) = rest.
Proof.
  intros Hw Hs Hd Hrest. unfold strtoul_conv.
  rewrite (skip_spaces_app _ _ Hw).
  destruct (decimal_first_digit digits n Hd) as (c & r & -> & Hc).
  destruct (digit_not_space_sign c Hc) as (Hsp & Hm & Hp).
  assert (Hu : exists d, NilEmpty.uint_of_string (String c r) = Some d).
  { unfold decimal, NilZero.uint_of_string in Hd.
    destruct (NilEmpty.uint_of_string (String c r)) as [d|];
      [now exists d | discriminate]. }
  destruct Hu as [d Hu].
  assert (Hscan : scan_sign (skip_spaces (sign ++ String c r ++ rest))
                  = (String.eqb sign "-", String c r ++ rest)).
  { destruct Hs as [-> | [-> | ->]]; [| reflexivity | reflexivity].
    cbn [append skip_spaces]. rewrite Hsp. cbn [scan_sign].
    now rewrite Hm, Hp. }
  rewrite Hscan, (scan_digits_stop _ rest Hrest d 0 0%nat Hu).
  cbn [String.length Nat.add].
  destruct (_ >? ULONG_MAX dm); [| destruct (String.eqb sign "-")];
    reflexivity.
Qed.

(** Negating 1 to 2^31 in [unsigned long] and storing the result in an
    [unsigned] gives a value above [INT_MAX]. *)
Lemma negation_wraps_high (dm : data_model) (n : Z) :
  1 <= n <= 2147483648 ->
  INT_MAX < to_unsigned ((- n) mod (ULONG_MAX dm + 1)).
Proof.
  intros Hn. unfold to_unsigned, UINT_MAX, INT_MAX.
  change (4294967295 + 1) with 4294967296.
  destruct dm; unfold ULONG_MAX;
    [ change (4294967295 + 1) with 4294967296
    | change (18446744073709551615 + 1) with 18446744073709551616 ];
    Z.div_mod_to_equations; lia.
Qed.

Section SizeArguments.

Variable os : OS.
Variable dm : data_model.
Variable strerror : Z -> string.

Ltac same_answer :=
  repeat match goal with
    | H1 : ?c = (?a, ?b), H2 : ?c = (?a', ?b') |- _ =>
        rewrite H1 in H2; injection H2 as <- <-
    | H1 : ?c = Some ?a, H2 : ?c = Some ?a' |- _ =>
        rewrite H1 in H2; injection H2 as <-
    end.
Ltac by_run H :=
  apply exec_inv in H; inversion H; subst; clear H;
  unfold arity_ok, arg in *; simpl in *; same_answer.

(** X4: the digits a successful query prints can be handed back as the
    size argument: the program then asks for exactly the size the kernel
    had reported (when that size fits an [int]). *)
Theorem query_feeds_resize prog path k code1 tr1 k1 f digits
        k2 r2 k3 code2 tr2 k4 :
  exec os dm strerror [prog; path] k = (code1, tr1, k1) ->
  reported_size tr1 = Some f -> rv f <> -1 -> 0 <= rv f <= INT_MAX ->
  stdout_of tr1 = digits ++ nl ->
  sys_open os path O_RDWR k2 = (r2, k3) -> rv r2 <> -1 ->
  exec os dm strerror [prog; path; digits] k2 = (code2, tr2, k4) ->
  code2 <> 3 /\
  exists f2, control_calls tr2 = [Fcntl (rv r2) (F_SETPIPE_SZ (rv f)) f2].
Proof.
  intros H1 Hrep Hf Hrange Hout Ho Hr H2.
  assert (Hd : digits = pct_d (rv f)).
  { by_run H1; try discriminate Hrep;
      match goal with Hq : Some _ = Some _ |- _ => injection Hq as <- end;
      injection Hrep as <-; [congruence |].
    rewrite append_empty_r in Hout. symmetry. now apply append_nl_inj. }
  subst digits.
  apply (accepted_request os dm strerror prog path (pct_d (rv f)) (rv f)
           k2 r2 k3 code2 tr2 k4); auto; try lia.
  apply accepted_decimal; [apply decimal_pct_d |]; lia.
Qed.

(** X5: a number with anything but a digit right behind it is refused,
    whatever the number: the bad-size message, the close of the handle,
    exit code 3, and no control call. *)
Theorem trailing_junk_refused prog path ws sign digits rest n
        k r k1 code tr k' :
  all_spaces ws = true -> is_sign sign -> decimal digits = Some n ->
  rest <> "" -> c_string rest = true -> isdigit (deref rest) = false ->
  sys_open os path O_RDWR k = (r, k1) -> rv r <> -1 ->
  exec os dm strerror [prog; path; ws ++ sign ++ digits ++ rest] k
    = (code, tr, k') ->
  code = 3 /\ control_calls tr = [] /\
  exists c, tr = [Open path O_RDWR r; Stderr bad_size_msg; Close (rv r) c].
Proof.
  intros Hw Hs Hd Hne Hc Hrest Ho Hr H.
  apply (rejected_exit3 os dm strerror prog path
           (ws ++ sign ++ digits ++ rest) k r k1 code tr k' Ho Hr);
    [| exact H].
  unfold accepted_size.
  pose proof (strtoul_endptr_stop dm ws sign digits rest n Hw Hs Hd Hrest) as E.
  destruct (strtoul_conv dm (ws ++ sign ++ digits ++ rest)) as [[v endptr] e].
  simpl in E. subst endptr.
  now rewrite (deref_c_string rest Hc Hne).
Qed.

(** X6: a string of digits denoting [n] is refused with exit code 3
    exactly when [n] is above [ULONG_MAX] or the low 32 bits of [n] are
    above [INT_MAX]; otherwise the set request carries those low 32
    bits. *)
Theorem digits_refused_iff prog path size n k r k1 code tr k' :
  decimal size = Some n ->
  sys_open os path O_RDWR k = (r, k1) -> rv r <> -1 ->
  exec os dm strerror [prog; path; size] k = (code, tr, k') ->
  (code = 3 <-> ULONG_MAX dm < n \/ INT_MAX < n mod 4294967296) /\
  (code <> 3 ->
   exists f,
     control_calls tr = [Fcntl (rv r) (F_SETPIPE_SZ (n mod 4294967296)) f]).
Proof.
  intros Hd Ho Hr H.
  pose proof (accepted_decimal_any dm size n Hd) as Ha.
  destruct (Z.gtb_spec n (ULONG_MAX dm)) as [Hu|Hu];
    [| destruct (Z.gtb_spec (n mod 4294967296) INT_MAX) as [Hl|Hl]];
    simpl in Ha.
  1,2: destruct (rejected_exit3 os dm strerror prog path size
                   k r k1 code tr k' Ho Hr Ha H) as (-> & _ & _);
       split; [split; auto | congruence].
  destruct (accepted_request os dm strerror prog path size _
              k r k1 code tr k' Ho Hr Ha Hl H) as [Hc Hf].
  split; [split; [congruence | lia] | auto].
Qed.

(** X8: a minus sign before digits denoting 1 to 2147483648 is refused
    with exit code 3, with a 32-bit and with a 64-bit [unsigned long]:
    the negation wraps to a value above [INT_MAX]. *)
Theorem negative_refused prog path ws digits n k r k1 code tr k' :
  all_spaces ws = true -> decimal digits = Some n ->
  1 <= n <= 2147483648 ->
  sys_open os path O_RDWR k = (r, k1) -> rv r <> -1 ->
  exec os dm strerror [prog; path; ws ++ "-" ++ digits] k = (code, tr, k') ->
  code = 3 /\ control_calls tr = [].
Proof.
  intros Hw Hd Hn Ho Hr H.
  assert (Ha : accepted_size dm (ws ++ "-" ++ digits) = None);
    [| destruct (rejected_exit3 os dm strerror prog path _
                   k r k1 code tr k' Ho Hr Ha H) as (? & ? & _); auto].
  unfold accepted_size.
  rewrite (strtoul_signed dm ws "-" digits n Hw); auto.
  - change (String.eqb "-" "-") with true. cbv iota.
    pose proof (negation_wraps_high dm n Hn) as Hhigh.
    change (Ascii.eqb (deref "") NUL) with true. simpl negb. simpl orb.
    destruct (Z.gtb_spec (to_unsigned ((- n) mod (ULONG_MAX dm + 1))) INT_MAX);
      [reflexivity | lia].
  - right; right; reflexivity.
  - destruct dm; simpl; lia.
Qed.

(** X9: a size argument that is not empty and has no digit where the
    number should start (after white space and an optional sign) is
    refused with exit code 3 and no control call. *)
Theorem no_digits_refused prog path size k r k1 code tr k' :
  c_string size = true -> size <> "" ->
  isdigit (first_subject_char size) = false ->
  sys_open os path O_RDWR k = (r, k1) -> rv r <> -1 ->
  exec os dm strerror [prog; path; size] k = (code, tr, k') ->
  code = 3 /\ control_calls tr = [].
Proof.
  intros Hc Hne Hnd Ho Hr H.
  assert (Ha : accepted_size dm size = None);
    [| destruct (rejected_exit3 os dm strerror prog path _
                   k r k1 code tr k' Ho Hr Ha H) as (? & ? & _); auto].
  unfold accepted_size. rewrite (strtoul_no_digits dm size Hnd).
  now rewrite (deref_c_string size Hc Hne).
Qed.

End SizeArguments.

Section DataModelILP32.

Variable os : OS.
Variable strerror : Z -> string.

(** X7: with a 32-bit [unsigned long], a string of digits denoting [n]
    is refused with exit code 3 exactly when [n] is above [INT_MAX], and
    otherwise the set request carries [n] itself. *)
Theorem digits_refused_iff_ilp32 prog path size n k r k1 code tr k' :
  decimal size = Some n ->
  sys_open os path O_RDWR k = (r, k1) -> rv r <> -1 ->
  exec os ILP32 strerror [prog; path; size] k = (code, tr, k') ->
  (code = 3 <-> INT_MAX < n) /\
  (code <> 3 ->
   exists f, control_calls tr = [Fcntl (rv r) (F_SETPIPE_SZ n) f]).
Proof.
  intros Hd Ho Hr H.
  destruct (Z.lt_ge_cases INT_MAX n) as [Hbig|Hsmall].
  - destruct (rejected_exit3 os ILP32 strerror prog path size
                k r k1 code tr k' Ho Hr
                (above_int_max_ilp32 size n Hd Hbig) H) as (-> & _ & _).
    split; [split; auto | congruence].
  - destruct (accepted_decimal ILP32 size n Hd Hsmall) as [Ha _].
    destruct (accepted_request os ILP32 strerror prog path size n
                k r k1 code tr k' Ho Hr Ha Hsmall H) as [Hc Hf].
    split; [split; [congruence | lia] | auto].
Qed.

End DataModelILP32.

(** ** What the exit code tells *)

Section ExitCodes.

Variable os : OS.
Variable dm : data_model.
Variable strerror : Z -> string.

Ltac same_answer :=
  repeat match goal with
    | H1 : ?c = (?a, ?b), H2 : ?c = (?a', ?b') |- _ =>
        rewrite H1 in H2; injection H2 as <- <-
    | H1 : ?c = Some ?a, H2 : ?c = Some ?a' |- _ =>
        rewrite H1 in H2; injection H2 as <-
    end.
Ltac by_run H :=
  apply exec_inv in H; inversion H; subst; clear H;
  unfold arity_ok, arg in *; simpl in *; same_answer.
Ltac member H :=
  repeat (destruct H as [H | H]); try discriminate H; try contradiction.
Ltac settle :=
  repeat match goal with
    | H : exists _, _ |- _ => destruct H
    | H : _ /\ _ |- _ => destruct H
    | H : In _ _ |- _ => member H
    | H : @eq event _ _ \/ _ |- _ => member H
    end;
  repeat match goal with
    | H : Fcntl _ _ _ = Fcntl _ _ _ |- _ => injection H as <- <- <-
    | H : Open _ _ _ = Open _ _ _ |- _ => injection H as _ _ <-
    end;
  try discriminate; try congruence; try tauto; try lia.

(** X10: the exit code identifies how far the run got.  It is 1 exactly
    when the argument count is wrong, 2 exactly when [open] returned -1,
    3 exactly when the path was opened and closed again without any
    control call, 4 exactly when the control call returned -1, and 0
    exactly when the control call returned something else. *)
Theorem exit_code_meaning argv k code tr k' :
  exec os dm strerror argv k = (code, tr, k') ->
  (code = 1 <-> ~ arity_ok argv) /\
  (code = 2 <-> exists p fl r, In (Open p fl r) tr /\ rv r = -1) /\
  (code = 3 <-> control_calls tr = [] /\ closes tr <> []) /\
  (code = 4 <-> exists fd cmd f, In (Fcntl fd cmd f) tr /\ rv f = -1) /\
  (code = 0 <-> exists fd cmd f, In (Fcntl fd cmd f) tr /\ rv f <> -1).
Proof.
  intros H. by_run H; repeat split; intros; settle.
  all: try (repeat eexists; simpl; eauto; fail).
Qed.

End ExitCodes.

(** ** The further properties on the reference kernel *)

Section MoreWitnesses.

Import RefKernel.

Lemma exit_discipline_witness :
  let out := pipe_resize ["pipe_resize"; "/tmp/myfifo"; "2000000"] boot in
  (exit_of out = 0 /\ diagnostics (trace_of out) = [] /\
   exists v, outputs (trace_of out) = [Stdout (pct_d v ++ nl)]) \/
  ((exit_of out = 1 \/ exit_of out = 2 \/ exit_of out = 3 \/ exit_of out = 4)
   /\ outputs (trace_of out) = [] /\
   exists msg, diagnostics (trace_of out) = [Stderr msg]).
Proof.
  intros out.
  apply (exit_discipline RefKernel.os LP64 RefKernel.strerror
           ["pipe_resize"; "/tmp/myfifo"; "2000000"] boot
           (exit_of out) (trace_of out) (kernel_of out)).
  reflexivity.
Defined.

Lemma syscall_discipline_witness :
  let argv := ["pipe_resize"; "/tmp/myfifo"; "100x"] in
  let out := pipe_resize argv boot in
  syscalls (trace_of out) = [] \/
  (exists r,
     rv r = -1 /\ syscalls (trace_of out) = [Open (arg argv 1) O_RDWR r]) \/
  (exists r c,
     rv r <> -1 /\
     syscalls (trace_of out) = [Open (arg argv 1) O_RDWR r; Close (rv r) c]) \/
  (exists r cmd f c,
     rv r <> -1 /\
     syscalls (trace_of out)
     = [Open (arg argv 1) O_RDWR r; Fcntl (rv r) cmd f; Close (rv r) c]).
Proof.
  intros argv out.
  apply (syscall_discipline RefKernel.os LP64 RefKernel.strerror
           argv boot (exit_of out) (trace_of out) (kernel_of out)).
  reflexivity.
Defined.

Lemma request_discipline_witness :
  let argv := ["pipe_resize"; "/tmp/myfifo"; "007"] in
  List.length argv = 3%nat /\ 0 <= 7 <= INT_MAX.
Proof.
  intros argv.
  pose (out := pipe_resize argv boot).
  apply (request_discipline RefKernel.os LP64 RefKernel.strerror
           argv boot (exit_of out) (trace_of out) (kernel_of out)
           3 (F_SETPIPE_SZ 7) (ok 4096));
    [reflexivity | right; left; reflexivity].
Defined.

Lemma query_feeds_resize_witness :
  let first := pipe_resize ["pipe_resize"; "/tmp/myfifo"] boot in
  let second :=
    pipe_resize ["pipe_resize"; "/tmp/myfifo"; "65536"] (kernel_of first) in
  exit_of second <> 3 /\
  exists f2,
    control_calls (trace_of second) = [Fcntl 3 (F_SETPIPE_SZ 65536) f2].
Proof.
  intros first second.
  apply (query_feeds_resize RefKernel.os LP64 RefKernel.strerror
           "pipe_resize" "/tmp/myfifo" boot
           (exit_of first) (trace_of first) (kernel_of first)
           (ok 65536) "65536"
           (kernel_of first) (ok 3) {| capacity := 65536; fds := [3] |}
           (exit_of second) (trace_of second) (kernel_of second));
    [reflexivity | reflexivity | discriminate | split; discriminate
    | reflexivity | reflexivity | discriminate | reflexivity].
Defined.

Lemma trailing_junk_refused_witness :
  let out := pipe_resize ["pipe_resize"; "/tmp/myfifo"; " 12abc"] boot in
  exit_of out = 3 /\ control_calls (trace_of out) = [] /\
  exists c,
    trace_of out
    = [Open "/tmp/myfifo" O_RDWR (ok 3); Stderr bad_size_msg; Close 3 c].
Proof.
  intros out.
  apply (trailing_junk_refused RefKernel.os LP64 RefKernel.strerror
           "pipe_resize" "/tmp/myfifo" " " "" "12" "abc" 12 boot
           (ok 3) {| capacity := 65536; fds := [3] |}
           (exit_of out) (trace_of out) (kernel_of out));
    [reflexivity | left; reflexivity | reflexivity | discriminate
    | reflexivity | reflexivity | reflexivity | discriminate | reflexivity].
Defined.

Lemma digits_refused_iff_witness :
  let out := pipe_resize ["pipe_resize"; "/tmp/myfifo"; "4294967296"] boot in
  (exit_of out = 3 <->
   ULONG_MAX LP64 < 4294967296 \/ INT_MAX < 4294967296 mod 4294967296) /\
  (exit_of out <> 3 ->
   exists f,
     control_calls (trace_of out)
     = [Fcntl 3 (F_SETPIPE_SZ (4294967296 mod 4294967296)) f]).
Proof.
  intros out.
  apply (digits_refused_iff RefKernel.os LP64 RefKernel.strerror
           "pipe_resize" "/tmp/myfifo" "4294967296" 4294967296 boot
           (ok 3) {| capacity := 65536; fds := [3] |}
           (exit_of out) (trace_of out) (kernel_of out));
    [reflexivity | reflexivity | discriminate | reflexivity].
Defined.

Lemma digits_refused_iff_ilp32_witness :
  let out := exec RefKernel.os ILP32 RefKernel.strerror
               ["pipe_resize"; "/tmp/myfifo"; "99999999999"] boot in
  (exit_of out = 3 <-> INT_MAX < 99999999999) /\
  (exit_of out <> 3 ->
   exists f,
     control_calls (trace_of out) = [Fcntl 3 (F_SETPIPE_SZ 99999999999) f]).
Proof.
  intros out.
  apply (digits_refused_iff_ilp32 RefKernel.os RefKernel.strerror
           "pipe_resize" "/tmp/myfifo" "99999999999" 99999999999 boot
           (ok 3) {| capacity := 65536; fds := [3] |}
           (exit_of out) (trace_of out) (kernel_of out));
    [reflexivity | reflexivity | discriminate | reflexivity].
Defined.

Lemma negative_refused_witness :
  let out := pipe_resize ["pipe_resize"; "/tmp/myfifo"; "-1"] boot in
  exit_of out = 3 /\ control_calls (trace_of out) = [].
Proof.
  intros out.
  apply (negative_refused RefKernel.os LP64 RefKernel.strerror
           "pipe_resize" "/tmp/myfifo" "" "1" 1 boot
           (ok 3) {| capacity := 65536; fds := [3] |}
           (exit_of out) (trace_of out) (kernel_of out));
    [reflexivity | reflexivity | split; discriminate | reflexivity
    | discriminate | reflexivity].
Defined.

Lemma no_digits_refused_witness :
  let out := pipe_resize ["pipe_resize"; "/tmp/myfifo"; "abc"] boot in
  exit_of out = 3 /\ control_calls (trace_of out) = [].
Proof.
  intros out.
  apply (no_digits_refused RefKernel.os LP64 RefKernel.strerror
           "pipe_resize" "/tmp/myfifo" "abc" boot
           (ok 3) {| capacity := 65536; fds := [3] |}
           (exit_of out) (trace_of out) (kernel_of out));
    [reflexivity | discriminate | reflexivity | reflexivity
    | discriminate | reflexivity].
Defined.

Lemma exit_code_meaning_witness :
  let argv := ["pipe_resize"; "/tmp/nosuchfifo"] in
  let out := pipe_resize argv boot in
  (exit_of out = 1 <-> ~ arity_ok argv) /\
  (exit_of out = 2 <->
   exists p fl r, In (Open p fl r) (trace_of out) /\ rv r = -1) /\
  (exit_of out = 3 <->
   control_calls (trace_of out) = [] /\ closes (trace_of out) <> []) /\
  (exit_of out = 4 <->
   exists fd cmd f, In (Fcntl fd cmd f) (trace_of out) /\ rv f = -1) /\
  (exit_of out = 0 <->
   exists fd cmd f, In (Fcntl fd cmd f) (trace_of out) /\ rv f <> -1).
Proof.
  intros argv out.
  apply (exit_code_meaning RefKernel.os LP64 RefKernel.strerror
           argv boot (exit_of out) (trace_of out) (kernel_of out)).
  reflexivity.
Defined.

End MoreWitnesses.
